(** * Task Manager front end (Frontend/src/App.tsx): a shallow embedding

    The component [App] keeps four pieces of React state ([tasks],
    [newTask], [loading], [filter]), mirrors [tasks] into
    [localStorage] under the key 'tasks', and talks to a remote service
    through the four promise-returning functions of [./api].

    Strings are Rocq strings; a character stands for one code unit below
    256.  Array lengths are [nat].  An [async] handler is split where it
    awaits: the part that runs at once puts a [Request] in flight, and
    [resume] runs the rest when the promise settles.  A handler closes
    over the [tasks] of the render it was created in, so a request
    carries that array as its snapshot. *)

From stdpp Require Import base list strings gmap sets.
From Stdlib Require Import Ascii NArith.

(** ** Data model *)

(** Modelled from the spec: the interface [Task] of [./types], which
    App.tsx imports; the component reads the fields [id], [description]
    and [isCompleted]. *)
Record Task := mkTask {
  id : string;
  description : string;
  isCompleted : bool
}.

(** [type FilterType = 'all' | 'active' | 'completed'] *)
Inductive FilterType := All | Active | Completed.

(** ** Derived views (lines 72-82) *)

(** The callback of [tasks.filter(task => ...)] at line 72. *)
Definition keep (filter : FilterType) (task : Task) : bool :=
  match filter with
  | Active => negb (isCompleted task)
  | Completed => isCompleted task
  | All => true
  end.

Definition filteredTasks (tasks : list Task) (filter : FilterType) : list Task :=
  List.filter (keep filter) tasks.

Record Stats := mkStats { total : nat; active : nat; completed : nat }.

Definition stats (tasks : list Task) : Stats :=
  {| total := length tasks;
     active := length (List.filter (fun t => negb (isCompleted t)) tasks);
     completed := length (List.filter (fun t => isCompleted t) tasks) |}.

(** The ids of a collection, in order and as a set. *)
Definition ids (tasks : list Task) : list string := map id tasks.
Definition idset (tasks : list Task) : gset string := list_to_set (ids tasks).

(** ** Built-ins the component calls *)

(** [JSON.stringify] and [JSON.parse] at the type the component uses
    them: [Task[]] to text and back.  [JSON_parse] answers [None] when
    the built-in throws a SyntaxError.  A text whose value is not an
    array of tasks has no place in [useState<Task[]>] and is not
    modelled. *)
Record JSON := {
  JSON_stringify : list Task -> string;
  JSON_parse : string -> option (list Task)
}.

(** What the round trip needs from the built-ins: parsing the text of an
    array gives the array back, and that text is never the empty string
    (it starts with a bracket). *)
Record JSONLaws (J : JSON) : Prop := {
  parse_stringify : forall ts, JSON_parse J (JSON_stringify J ts) = Some ts;
  stringify_nonempty : forall ts, JSON_stringify J ts <> EmptyString
}.

(** WhiteSpace and LineTerminator code units below 256: TAB, LF, VT, FF,
    CR, SP and NBSP. *)
Definition isWhiteSpace (c : ascii) : bool :=
  match N_of_ascii c with
  | 9 | 10 | 11 | 12 | 13 | 32 | 160 => true
  | _ => false
  end%N.

Fixpoint trimStart (s : string) : string :=
  match s with
  | EmptyString => EmptyString
  | String c s' => if isWhiteSpace c then trimStart s' else s
  end.

Fixpoint trimEnd (s : string) : string :=
  match s with
  | EmptyString => EmptyString
  | String c s' =>
      match trimEnd s' with
      | EmptyString => if isWhiteSpace c then EmptyString else String c EmptyString
      | r => String c r
      end
  end.

(** [String.prototype.trim] *)
Definition trim (s : string) : string := trimEnd (trimStart s).

(** ToBoolean on a string: only the empty string is falsy. *)
Definition truthy (s : string) : bool :=
  match s with EmptyString => false | String _ _ => true end.

(** ** The remote service *)

(** The calls of [./api], with the arguments the component passes. *)
Inductive Call :=
| getTasks
| createTask (description : string)
| updateTask (id description : string) (isCompleted : bool)
| deleteTask (id : string).

(** How a promise settles. *)
Inductive Reply :=
| Fulfilled_tasks (data : list Task)
| Fulfilled_task (task : Task)
| Fulfilled_void
| Rejected (error : string).

(** A handler suspended at its [await], with what its closure holds. *)
Inductive Request :=
| LoadTasks
| AddTask (tasks : list Task) (newTask : string)
| ToggleComplete (tasks : list Task) (task : Task)
| DeleteTask (tasks : list Task) (id : string).

(** The call a suspended handler is waiting for (lines 31, 44, 56, 65). *)
Definition api_call (r : Request) : Call :=
  match r with
  | LoadTasks => getTasks
  | AddTask _ newTask => createTask newTask
  | ToggleComplete _ task =>
      updateTask (id task) (description task) (negb (isCompleted task))
  | DeleteTask _ i => deleteTask i
  end.

Definition is_create (r : Request) : bool :=
  match r with AddTask _ _ => true | _ => false end.

(** ** Component state and its surroundings *)

Record World := mkWorld {
  tasks : list Task;
  newTask : string;
  loading : bool;
  filter : FilterType;
  storage : option string;      (* localStorage.getItem('tasks'), null = None *)
  inflight : list Request;      (* promises not yet settled *)
  console : list (string * string)   (* console.error(message, error) *)
}.

Definition creates_in_flight (w : World) : nat :=
  length (List.filter is_create (inflight w)).

Definition write_tasks (v : list Task) (w : World) : World :=
  mkWorld v (newTask w) (loading w) (filter w) (storage w) (inflight w) (console w).

Definition setNewTask (v : string) (w : World) : World :=
  mkWorld (tasks w) v (loading w) (filter w) (storage w) (inflight w) (console w).

Definition setLoading (v : bool) (w : World) : World :=
  mkWorld (tasks w) (newTask w) v (filter w) (storage w) (inflight w) (console w).

Definition setFilter (v : FilterType) (w : World) : World :=
  mkWorld (tasks w) (newTask w) (loading w) v (storage w) (inflight w) (console w).

Definition setItem (v : string) (w : World) : World :=
  mkWorld (tasks w) (newTask w) (loading w) (filter w) (Some v) (inflight w) (console w).

Definition set_inflight (v : list Request) (w : World) : World :=
  mkWorld (tasks w) (newTask w) (loading w) (filter w) (storage w) v (console w).

Definition await (r : Request) (w : World) : World :=
  set_inflight (inflight w ++ [r]) w.

Definition console_error (message error : string) (w : World) : World :=
  mkWorld (tasks w) (newTask w) (loading w) (filter w) (storage w) (inflight w)
          (console w ++ [(message, error)]).

(** [useState] initial values (lines 9-12) in front of a given cache. *)
Definition initial (saved : option string) : World :=
  mkWorld [] EmptyString false All saved [] [].

Section Controller.

Variable J : JSON.

(** The effect of lines 24-27, run after a render in which [tasks]
    changed. *)
Definition useEffect_save (w : World) : World :=
  setItem (JSON_stringify J (tasks w)) w.

(** [setTasks(v)] with a fresh array [v]: the state write, then the
    render it causes, whose save effect runs. *)
Definition setTasks (v : list Task) (w : World) : World :=
  useEffect_save (write_tasks v w).

(** [loadTasks] up to its [await] (lines 29-31). *)
Definition loadTasks (w : World) : World := await LoadTasks w.

(** Mounting (lines 14-27).  The load effect reads the cache; a truthy
    blob is parsed and queued as the next [tasks]; then [loadTasks()]
    starts.  The save effect of the first render writes the empty
    array; the queued write is rendered after it and saved in turn.
    [None]: [JSON.parse] threw inside the load effect, which ends there,
    before the call of [loadTasks()]. *)
Definition mount (saved : option string) : option World :=
  let w := initial saved in
  queued ←
    match storage w with
    | Some blob =>
        if truthy blob
        then parsed ← JSON_parse J blob; Some (Some parsed)
        else Some None
    | None => Some None
    end;
  let w := loadTasks w in
  let w := useEffect_save w in
  Some match queued with
       | Some parsed => setTasks parsed w
       | None => w
       end.

(** [handleAddTask] up to its [await] (lines 38-44). *)
Definition handleAddTask (w : World) : World :=
  if negb (truthy (trim (newTask w))) then w
  else await (AddTask (tasks w) (newTask w)) (setLoading true w).

(** [handleToggleComplete] up to its [await] (lines 54-56). *)
Definition handleToggleComplete (task : Task) (w : World) : World :=
  await (ToggleComplete (tasks w) task) w.

(** [handleDeleteTask] up to its [await] (lines 63-65). *)
Definition handleDeleteTask (i : string) (w : World) : World :=
  await (DeleteTask (tasks w) i) w.

(** The callback of [tasks.map] at line 57. *)
Definition replace_by_id (task updated : Task) (t : Task) : Task :=
  if String.eqb (id t) (id task) then updated else t.

(** The callback of [tasks.filter] at line 66. *)
Definition other_id (i : string) (t : Task) : bool :=
  negb (String.eqb (id t) i).

(** The rest of a handler once its promise has settled.  [None]: the
    reply has a type the awaited call cannot produce. *)
Definition resume (r : Request) (reply : Reply) (w : World) : option World :=
  match r, reply with
  | LoadTasks, Fulfilled_tasks data => Some (setTasks data w)
  | LoadTasks, Rejected error =>
      Some (console_error "Failed to load tasks:" error w)
  | AddTask snapshot _, Fulfilled_task task =>
      Some (setLoading false
              (setNewTask EmptyString (setTasks (snapshot ++ [task]) w)))
  | AddTask _ _, Rejected error =>
      Some (setLoading false (console_error "Failed to add task:" error w))
  | ToggleComplete snapshot task, Fulfilled_task updated =>
      Some (setTasks (map (replace_by_id task updated) snapshot) w)
  | ToggleComplete _ _, Rejected error =>
      Some (console_error "Failed to update task:" error w)
  | DeleteTask snapshot i, Fulfilled_void =>
      Some (setTasks (List.filter (other_id i) snapshot) w)
  | DeleteTask _ _, Rejected error =>
      Some (console_error "Failed to delete task:" error w)
  | _, _ => None
  end.

(** ** The view's controls (lines 91-112) *)

(** [disabled={loading || !newTask.trim()}] on the submit button. *)
Definition add_disabled (w : World) : bool :=
  loading w || negb (truthy (trim (newTask w))).

(** A submit attempt on the form: a disabled submit button blocks it,
    otherwise [onSubmit] runs. *)
Definition submit (w : World) : World :=
  if add_disabled w then w else handleAddTask w.

(** Typing in the input, which carries [disabled={loading}]. *)
Definition change (v : string) (w : World) : World :=
  if loading w then w else setNewTask v w.

Inductive Event :=
| Change (value : string)
| Submit
| Toggle (task : Task)
| Delete (id : string)
| Filter (value : FilterType)
| Settle (n : nat) (reply : Reply).

(** One event of the page: a user action, or the [n]-th promise in
    flight settling. *)
Definition step (e : Event) (w : World) : option World :=
  match e with
  | Change v => Some (change v w)
  | Submit => Some (submit w)
  | Toggle task => Some (handleToggleComplete task w)
  | Delete i => Some (handleDeleteTask i w)
  | Filter f => Some (setFilter f w)
  | Settle n reply =>
      r ← inflight w !! n;
      resume r reply (set_inflight (delete n (inflight w)) w)
  end.

Fixpoint run (es : list Event) (w : World) : option World :=
  match es with
  | [] => Some w
  | e :: es' => w' ← step e w; run es' w'
  end.

End Controller.

(** ** The rendered list (lines 142-185) *)

Definition FilterType_eqb (a b : FilterType) : bool :=
  match a, b with
  | All, All | Active, Active | Completed, Completed => true
  | _, _ => false
  end.

(** [{cond && 'text'}] in JSX: the text when [cond] holds, nothing
    otherwise. *)
Definition jsx_and (cond : bool) (text : string) : string :=
  if cond then text else EmptyString.

(** One [div] of the list (lines 160-182): its key, class, the checkbox
    state, the text, and the events its checkbox and its delete button
    fire. *)
Record Row := mkRow {
  key : string;
  className : string;
  checked : bool;
  label : string;
  onChange : Event;
  onClick : Event
}.

Definition row (task : Task) : Row :=
  {| key := id task;
     className := "task-item " +:+ (if isCompleted task then "completed" else EmptyString);
     checked := isCompleted task;
     label := description task;
     onChange := Toggle task;
     onClick := Delete (id task) |}.

Inductive TaskList :=
| EmptyState (title text : string)
| Rows (rows : list Row).

(** The conditional of line 144. *)
Definition task_list (w : World) : TaskList :=
  let shown := filteredTasks (tasks w) (filter w) in
  if Nat.eqb (length shown) 0 then
    EmptyState
      (jsx_and (FilterType_eqb (filter w) All) "No tasks yet"
       +:+ jsx_and (FilterType_eqb (filter w) Active) "No active tasks"
       +:+ jsx_and (FilterType_eqb (filter w) Completed) "No completed tasks")
      (jsx_and (FilterType_eqb (filter w) All) "Add your first task to get started!"
       +:+ jsx_and (FilterType_eqb (filter w) Active) "All tasks are completed!"
       +:+ jsx_and (FilterType_eqb (filter w) Completed)
             "Complete some tasks to see them here.")
  else Rows (map row shown).

Definition is_fetch (r : Request) : bool :=
  match r with LoadTasks => true | _ => false end.

Definition fetches_in_flight (w : World) : nat :=
  length (List.filter is_fetch (inflight w)).

(** The first argument of [console.error] in the [catch] of each
    handler (lines 34, 48, 59, 68). *)
Definition failure_message (r : Request) : string :=
  match r with
  | LoadTasks => "Failed to load tasks:"
  | AddTask _ _ => "Failed to add task:"
  | ToggleComplete _ _ => "Failed to update task:"
  | DeleteTask _ _ => "Failed to delete task:"
  end.

(** ** A reference codec

    An executable account of [JSON.stringify] on a [Task[]] and of
    [JSON.parse] on the texts it writes: members in the order [id],
    [description], [isCompleted], no insignificant white space, strings
    quoted as QuoteJSONString does.  Every other text is refused. *)

Module Ref.

Definition dquote : ascii := "034"%char.
Definition backslash : ascii := "092"%char.

Definition hexDigit (n : N) : ascii :=
  ascii_of_N (if (n <? 10)%N then 48 + n else 87 + n)%N.

Definition hexValue (c : ascii) : option N :=
  let n := N_of_ascii c in
  if ((48 <=? n) && (n <=? 57))%N then Some (n - 48)%N
  else if ((97 <=? n) && (n <=? 102))%N then Some (n - 87)%N
  else if ((65 <=? n) && (n <=? 70))%N then Some (n - 55)%N
  else None.

(** The text of one code unit inside a quoted string. *)
Definition quoteChar (c : ascii) : string :=
  let n := N_of_ascii c in
  match n with
  | 8 => String backslash "b"
  | 9 => String backslash "t"
  | 10 => String backslash "n"
  | 12 => String backslash "f"
  | 13 => String backslash "r"
  | 34 => String backslash (String dquote EmptyString)
  | 92 => String backslash (String backslash EmptyString)
  | _ =>
      if (n <? 32)%N
      then String backslash
             ("u00" +:+ String (hexDigit (n / 16)) (String (hexDigit (n mod 16)) EmptyString))
      else String c EmptyString
  end%N.

(** The characters of [s], the closing quote, then [rest]. *)
Fixpoint quoteBody (s rest : string) : string :=
  match s with
  | EmptyString => String dquote rest
  | String c s' => quoteChar c +:+ quoteBody s' rest
  end.

Definition key (name : string) : string :=
  String dquote (name +:+ String dquote ":").

Definition open_task : string := "{" +:+ key "id" +:+ String dquote EmptyString.
Definition then_description : string :=
  "," +:+ key "description" +:+ String dquote EmptyString.
Definition then_isCompleted : string := "," +:+ key "isCompleted".

Definition write_bool (b : bool) (rest : string) : string :=
  (if b then "true" else "false") +:+ rest.

Definition write_task (t : Task) (rest : string) : string :=
  open_task +:+ quoteBody (id t)
    (then_description +:+ quoteBody (description t)
       (then_isCompleted +:+ write_bool (isCompleted t) (String "}" rest))).

Fixpoint write_elements (t : Task) (ts : list Task) (rest : string) : string :=
  match ts with
  | [] => write_task t (String "]" rest)
  | t' :: ts' => write_task t (String "," (write_elements t' ts' rest))
  end.

Definition stringify (ts : list Task) : string :=
  match ts with
  | [] => "[]"
  | t :: ts' => String "[" (write_elements t ts' EmptyString)
  end.

(** Strip the literal [p] from the front of [s]. *)
Fixpoint expect (p s : string) : option string :=
  match p with
  | EmptyString => Some s
  | String c p' =>
      match s with
      | String d s' => if Ascii.eqb c d then expect p' s' else None
      | EmptyString => None
      end
  end.

(** The character a one-letter escape stands for. *)
Definition unescape (e : ascii) : option ascii :=
  match N_of_ascii e with
  | 34 => Some dquote
  | 92 => Some backslash
  | 47 => Some "/"%char
  | 98 => Some (ascii_of_N 8)
  | 102 => Some (ascii_of_N 12)
  | 110 => Some (ascii_of_N 10)
  | 114 => Some (ascii_of_N 13)
  | 116 => Some (ascii_of_N 9)
  | _ => None
  end%N.

(** Four hex digits as a code unit below 256. *)
Definition hex4 (h1 h2 h3 h4 : ascii) : option ascii :=
  v1 ← hexValue h1; v2 ← hexValue h2; v3 ← hexValue h3; v4 ← hexValue h4;
  let v := (((v1 * 16 + v2) * 16 + v3) * 16 + v4)%N in
  if (v <? 256)%N then Some (ascii_of_N v) else None.

(** Read a string from just after its opening quote: its value and the
    text after the closing quote. *)
Fixpoint unquote (s : string) : option (string * string) :=
  match s with
  | EmptyString => None
  | String c s' =>
      if Ascii.eqb c dquote then Some (EmptyString, s')
      else if Ascii.eqb c backslash then
        match s' with
        | String e s'' =>
            if Ascii.eqb e "u" then
              match s'' with
              | String h1 (String h2 (String h3 (String h4 r))) =>
                  match hex4 h1 h2 h3 h4, unquote r with
                  | Some c', Some (v, rest) => Some (String c' v, rest)
                  | _, _ => None
                  end
              | _ => None
              end
            else
              match unescape e, unquote s'' with
              | Some c', Some (v, rest) => Some (String c' v, rest)
              | _, _ => None
              end
        | EmptyString => None
        end
      else if (N_of_ascii c <? 32)%N then None
      else
        match unquote s' with
        | Some (v, rest) => Some (String c v, rest)
        | None => None
        end
  end.

Definition read_bool (s : string) : option (bool * string) :=
  match expect "true" s with
  | Some rest => Some (true, rest)
  | None => rest ← expect "false" s; Some (false, rest)
  end.

Definition read_task (s : string) : option (Task * string) :=
  s ← expect open_task s;
  '(i, s) ← unquote s;
  s ← expect then_description s;
  '(d, s) ← unquote s;
  s ← expect then_isCompleted s;
  '(b, s) ← read_bool s;
  s ← expect "}" s;
  Some (mkTask i d b, s).

(** The elements after the opening bracket, up to the closing one. *)
Fixpoint read_elements (fuel : nat) (s : string) : option (list Task * string) :=
  match fuel with
  | O => None
  | S fuel' =>
      '(t, s) ← read_task s;
      match s with
      | String c s' =>
          if Ascii.eqb c "]" then Some ([t], s')
          else if Ascii.eqb c "," then
            '(ts, rest) ← read_elements fuel' s'; Some (t :: ts, rest)
          else None
      | EmptyString => None
      end
  end.

Definition parse (s : string) : option (list Task) :=
  match s with
  | String c s' =>
      if Ascii.eqb c "[" then
        match s' with
        | String "]" EmptyString => Some []
        | _ =>
            match read_elements (String.length s') s' with
            | Some (ts, EmptyString) => Some ts
            | _ => None
            end
        end
      else None
  | EmptyString => None
  end.

Definition json : JSON :=
  {| JSON_stringify := stringify; JSON_parse := parse |}.

End Ref.

Definition T1 : Task := mkTask "1" "Buy milk" false.
Definition T2 : Task := mkTask "2" "Walk the dog" true.

(** ** Sample worlds *)

(** A page just mounted on an absent cache: the fetch is in flight. *)
Definition mounted_world : World :=
  mkWorld [] EmptyString false All (Some "[]") [LoadTasks] [].

(** The same page after "Buy milk" was typed and submitted, the create
    not yet settled. *)
Definition pending_world : World :=
  mkWorld [] "Buy milk" true All (Some "[]")
          [LoadTasks; AddTask [] "Buy milk"] [].

(** A page showing two tasks, nothing in flight. *)
Definition listed_world : World :=
  mkWorld [T1; T2] EmptyString false All
          (Some (Ref.stringify [T1; T2])) [] [].

(** A page mounted on the cache of [T1] and [T2], its fetch still in
    flight. *)
Definition cached_world : World :=
  mkWorld [T1; T2] EmptyString false All
          (Some (Ref.stringify [T1; T2])) [LoadTasks] [].

Definition T3 : Task := mkTask "3" "Read" false.

(** What the service answers when [T1] is toggled. *)
Definition T1_done : Task := mkTask "1" "Buy milk" true.

(** * Properties *)

(** ** The derived views *)

Lemma filter_true_id {A} (l : list A) : List.filter (fun _ => true) l = l.
Proof. induction l as [|x l IH]; simpl; [done | by rewrite IH]. Qed.

Lemma filter_split_length {A} (p : A -> bool) (l : list A) :
  length l = length (List.filter (fun x => negb (p x)) l) + length (List.filter p l).
Proof.
  induction l as [|x l IH]; simpl; [done|].
  destruct (p x); simpl; lia.
Qed.

Lemma elem_of_idset (x : string) (l : list Task) :
  x ∈ idset l <-> exists t, t ∈ l /\ id t = x.
Proof.
  unfold idset, ids. rewrite elem_of_list_to_set, list_elem_of_fmap.
  split; intros (t & H1 & H2); exists t; auto.
Qed.

Lemma elem_of_filteredTasks (t : Task) (l : list Task) (f : FilterType) :
  t ∈ filteredTasks l f <-> t ∈ l /\ keep f t = true.
Proof.
  unfold filteredTasks. rewrite !list_elem_of_In. apply filter_In.
Qed.

(** Two members of a collection with unique ids that share an id are the
    same task. *)
Lemma unique_id_eq (l : list Task) (a b : Task) :
  NoDup (ids l) -> a ∈ l -> b ∈ l -> id a = id b -> a = b.
Proof.
  unfold ids. induction l as [|t ts IH]; simpl; intros Hnd Ha Hb Hid.
  - by apply elem_of_nil in Ha.
  - apply NoDup_cons in Hnd as [Hnotin Hnd].
    apply elem_of_cons in Ha as [->|Ha]; apply elem_of_cons in Hb as [->|Hb].
    + done.
    + exfalso. apply Hnotin. rewrite Hid. apply list_elem_of_fmap. eauto.
    + exfalso. apply Hnotin. rewrite <- Hid. apply list_elem_of_fmap. eauto.
    + by apply IH.
Qed.

(** C7: with the filter 'all' the derived list is the collection itself,
    same entries in the same order, hence also the same length. *)
Theorem filteredTasks_all_identity (l : list Task) :
  filteredTasks l All = l /\
  length (filteredTasks l All) = length l.
Proof.
  assert (filteredTasks l All = l) as H by apply filter_true_id.
  by rewrite H.
Qed.

(** Every id is shown under 'active' or under 'completed'; this half
    needs no assumption on the ids. *)
Lemma filteredTasks_cover (l : list Task) :
  idset (filteredTasks l Active) ∪ idset (filteredTasks l Completed) = idset l.
Proof.
  apply set_eq. intros x.
  rewrite elem_of_union, !elem_of_idset. split.
  - intros [(t & Ht & <-)|(t & Ht & <-)];
      apply elem_of_filteredTasks in Ht as [Ht _]; eauto.
  - intros (t & Ht & <-).
    destruct (isCompleted t) eqn:Hc; [right|left]; exists t;
      (split; [|done]); apply elem_of_filteredTasks; simpl; by rewrite Hc.
Qed.

(** C8: the ids shown under 'active' together with the ids shown under
    'completed' are the ids of the whole collection; in a collection
    whose ids are unique (the data model's invariant) the two id sets are
    disjoint. *)
Theorem filteredTasks_partition (l : list Task) :
  NoDup (ids l) ->
  idset (filteredTasks l Active) ∪ idset (filteredTasks l Completed) = idset l
  /\ idset (filteredTasks l Active) ## idset (filteredTasks l Completed).
Proof.
  intros Hnd. split; [apply filteredTasks_cover|].
  apply elem_of_disjoint. intros x.
  rewrite !elem_of_idset. intros (a & Ha & Hida) (b & Hb & Hidb).
  apply elem_of_filteredTasks in Ha as [Ha Hka].
  apply elem_of_filteredTasks in Hb as [Hb Hkb].
  assert (a = b) as -> by (apply (unique_id_eq l); congruence).
  simpl in *. destruct (isCompleted b); discriminate.
Qed.

Lemma filteredTasks_partition_witness :
  NoDup (ids [T1; T2]) /\
  idset (filteredTasks [T1; T2] Active) ∪ idset (filteredTasks [T1; T2] Completed)
    = idset [T1; T2] /\
  idset (filteredTasks [T1; T2] Active) ## idset (filteredTasks [T1; T2] Completed).
Proof.
  assert (NoDup (ids [T1; T2])) as H
    by (apply (bool_decide_unpack _); vm_compute; exact I).
  split; [exact H | exact (filteredTasks_partition [T1; T2] H)].
Defined.

(** C9: the three counters agree, total = active + completed. *)
Theorem stats_consistent (l : list Task) :
  total (stats l) = active (stats l) + completed (stats l).
Proof. unfold stats; simpl. apply filter_split_length. Qed.

(** ** The reference codec reads back what it writes *)

Lemma expect_app (p s : string) : Ref.expect p (p +:+ s) = Some s.
Proof.
  induction p as [|c p IH]; simpl; [done|].
  by rewrite Ascii.eqb_refl.
Qed.

(** One quoted code unit, whichever of the 256 it is, is read back as
    that code unit. *)
Lemma unquote_quoteChar (c : ascii) (v s rest : string) :
  Ref.unquote s = Some (v, rest) ->
  Ref.unquote (Ref.quoteChar c +:+ s) = Some (String c v, rest).
Proof.
  intros H.
  destruct c as [[] [] [] [] [] [] [] []];
    match goal with
    | |- context [Ref.quoteChar ?a] =>
        let q := eval vm_compute in (Ref.quoteChar a) in
        change (Ref.quoteChar a) with q
    end; cbv [String.append]; simpl; rewrite H; reflexivity.
Qed.

Lemma unquote_quoteBody (v rest : string) :
  Ref.unquote (Ref.quoteBody v rest) = Some (v, rest).
Proof.
  induction v as [|c v IH]; simpl; [reflexivity|].
  by apply unquote_quoteChar.
Qed.

Lemma read_bool_write (b : bool) (rest : string) :
  Ref.read_bool (Ref.write_bool b rest) = Some (b, rest).
Proof. by destruct b. Qed.

Lemma read_task_write (t : Task) (rest : string) :
  Ref.read_task (Ref.write_task t rest) = Some (t, rest).
Proof.
  destruct t as [i d b]. unfold Ref.read_task, Ref.write_task.
  simpl id; simpl description; simpl isCompleted.
  rewrite (expect_app Ref.open_task). cbn [mbind option_bind].
  rewrite unquote_quoteBody. cbn [mbind option_bind].
  rewrite (expect_app Ref.then_description). cbn [mbind option_bind].
  rewrite unquote_quoteBody. cbn [mbind option_bind].
  rewrite (expect_app Ref.then_isCompleted). cbn [mbind option_bind].
  rewrite read_bool_write. reflexivity.
Qed.

Lemma read_elements_write (ts : list Task) :
  forall (t : Task) (rest : string) (fuel : nat),
    length ts < fuel ->
    Ref.read_elements fuel (Ref.write_elements t ts rest) = Some (t :: ts, rest).
Proof.
  induction ts as [|t' ts IH]; intros t rest fuel Hfuel;
    (destruct fuel as [|fuel]; [lia|]); simpl.
  - by rewrite read_task_write.
  - rewrite read_task_write. simpl. rewrite IH; [done | simpl in Hfuel; lia].
Qed.

Lemma length_append (a b : string) :
  String.length (a +:+ b) = String.length a + String.length b.
Proof. induction a as [|c a IH]; simpl; [done | by rewrite IH]. Qed.

Lemma length_quoteBody (v rest : string) :
  String.length rest < String.length (Ref.quoteBody v rest).
Proof.
  induction v as [|c v IH]; simpl; [lia|].
  rewrite length_append. lia.
Qed.

Lemma length_write_task (t : Task) (rest : string) :
  String.length rest < String.length (Ref.write_task t rest).
Proof.
  unfold Ref.write_task, Ref.write_bool.
  set (tail := (if isCompleted t then "true" else "false") +:+ String "}" rest).
  assert (String.length rest < String.length tail) as H0
    by (unfold tail; rewrite length_append; simpl; lia).
  set (s2 := Ref.then_isCompleted +:+ tail).
  assert (String.length tail <= String.length s2) as H1
    by (unfold s2; rewrite length_append; lia).
  pose proof (length_quoteBody (description t) s2) as H2.
  set (s3 := Ref.then_description +:+ Ref.quoteBody (description t) s2) in *.
  assert (String.length (Ref.quoteBody (description t) s2) <= String.length s3) as H3
    by (unfold s3; rewrite length_append; lia).
  pose proof (length_quoteBody (id t) s3) as H4.
  rewrite length_append. lia.
Qed.

(** The fuel [parse] starts with is enough: the text after the bracket
    is longer than the array. *)
Lemma length_write_elements (ts : list Task) :
  forall (t : Task) (rest : string),
    length ts < String.length (Ref.write_elements t ts rest).
Proof.
  induction ts as [|t' ts IH]; intros t rest; simpl.
  - pose proof (length_write_task t (String "]" rest)). lia.
  - pose proof (length_write_task t (String "," (Ref.write_elements t' ts rest))) as H.
    specialize (IH t' rest). simpl in H. lia.
Qed.

Lemma write_elements_head (ts : list Task) (t : Task) (rest : string) :
  exists r, Ref.write_elements t ts rest = String "{" (String Ref.dquote r).
Proof. destruct ts; simpl; unfold Ref.write_task; simpl; eauto. Qed.

Lemma parse_stringify_ref (ts : list Task) :
  Ref.parse (Ref.stringify ts) = Some ts.
Proof.
  destruct ts as [|t ts]; [reflexivity|].
  unfold Ref.stringify, Ref.parse. rewrite Ascii.eqb_refl.
  pose proof (read_elements_write ts t EmptyString _
                (length_write_elements ts t EmptyString)) as H.
  destruct (write_elements_head ts t EmptyString) as [r Hr].
  rewrite Hr in *. by rewrite H.
Qed.

Lemma stringify_nonempty_ref (ts : list Task) : Ref.stringify ts <> EmptyString.
Proof. by destruct ts. Qed.

Lemma json_laws : JSONLaws Ref.json.
Proof. split; [apply parse_stringify_ref | apply stringify_nonempty_ref]. Qed.

(** ** [trim] *)

(** The trimmed string is empty exactly when every code unit is white
    space. *)
Lemma trim_empty_iff (s : string) :
  trim s = EmptyString <->
  forallb isWhiteSpace (String.list_ascii_of_string s) = true.
Proof.
  unfold trim. induction s as [|c s IH]; simpl; [done|].
  destruct (isWhiteSpace c) eqn:Hc; simpl; [exact IH|].
  split; [|done]. destruct (trimEnd s); [by rewrite Hc | done].
Qed.

(** ** The callbacks of [map] and [filter] in the handlers *)

Lemma replace_by_id_hit (task updated t : Task) :
  id t = id task -> replace_by_id task updated t = updated.
Proof. intros H. unfold replace_by_id. by rewrite H, String.eqb_refl. Qed.

Lemma replace_by_id_miss (task updated t : Task) :
  id t <> id task -> replace_by_id task updated t = t.
Proof.
  intros H. unfold replace_by_id.
  by destruct (String.eqb_spec (id t) (id task)).
Qed.

Lemma lookup_map_replace (task updated : Task) (l : list Task) (k : nat) :
  map (replace_by_id task updated) l !! k
  = replace_by_id task updated <$> l !! k.
Proof. apply (list_lookup_fmap (replace_by_id task updated)). Qed.

(** In a collection with unique ids only the position of [task] holds
    its id. *)
Lemma unique_id_position (l : list Task) (task t : Task) (k j : nat) :
  NoDup (ids l) -> l !! k = Some task -> l !! j = Some t ->
  id t = id task -> j = k.
Proof.
  intros Hnd Hk Hj Hid.
  apply (NoDup_lookup (ids l) j k (id task) Hnd); unfold ids.
  - change (map id l) with (id <$> l). by rewrite list_lookup_fmap, Hj, <- Hid.
  - change (map id l) with (id <$> l). by rewrite list_lookup_fmap, Hk.
Qed.

Lemma map_replace_insert (l : list Task) (task updated : Task) (k : nat) :
  NoDup (ids l) -> l !! k = Some task ->
  map (replace_by_id task updated) l = <[k:=updated]> l.
Proof.
  intros Hnd Hk. apply list_eq. intros j.
  rewrite lookup_map_replace.
  destruct (decide (j = k)) as [->|Hne].
  - rewrite Hk, list_lookup_insert_eq by (by eapply lookup_lt_Some).
    simpl. by rewrite replace_by_id_hit.
  - rewrite list_lookup_insert_ne by done.
    destruct (l !! j) as [t|] eqn:Hj; [|done]. simpl.
    rewrite replace_by_id_miss; [done|].
    intros Hid. apply Hne. by eapply unique_id_position.
Qed.

Lemma ids_map_replace (l : list Task) (task updated : Task) :
  id updated = id task ->
  ids (map (replace_by_id task updated) l) = ids l.
Proof.
  intros Hid. unfold ids. induction l as [|t l IH]; simpl; [done|].
  rewrite IH. f_equal. unfold replace_by_id.
  destruct (String.eqb_spec (id t) (id task)); congruence.
Qed.

Lemma other_id_true (i : string) (t : Task) : other_id i t = true <-> id t <> i.
Proof.
  unfold other_id. destruct (String.eqb_spec (id t) i); simpl; split; congruence.
Qed.


Lemma filter_other_id_absent (i : string) (l : list Task) :
  i ∉ ids l -> List.filter (other_id i) l = l.
Proof.
  unfold ids. induction l as [|t l IH]; simpl; intros Hni; [done|].
  apply not_elem_of_cons in Hni as [Hne Hni].
  assert (other_id i t = true) as -> by (apply other_id_true; congruence).
  by rewrite IH.
Qed.

Lemma filter_other_id_delete (i : string) (l : list Task) :
  forall (k : nat) (t : Task),
    NoDup (ids l) -> l !! k = Some t -> id t = i ->
    List.filter (other_id i) l = delete k l.
Proof.
  unfold ids. induction l as [|y l IH]; intros k t Hnd Hk Hid; [done|].
  simpl in Hnd. apply NoDup_cons in Hnd as [Hy Hnd].
  destruct k as [|k]; simpl in *.
  - injection Hk as ->.
    assert (other_id i t = false) as ->
      by (unfold other_id; by rewrite Hid, String.eqb_refl).
    apply filter_other_id_absent. by rewrite <- Hid.
  - assert (other_id i y = true) as ->.
    { apply other_id_true. intros Hy'. apply Hy. rewrite Hy', <- Hid.
      apply list_elem_of_fmap. exists t. split; [done|].
      by eapply list_elem_of_lookup_2. }
    f_equal. by eapply IH.
Qed.


(** ** The controller *)

Section ControllerFacts.

Variable J : JSON.

(** A promise that settles before anything else happens: the handler
    that was just suspended is resumed in the world it left. *)
Lemma step_settle_await (r : Request) (reply : Reply) (w : World) :
  step J (Settle (length (inflight w)) reply) (await r w) = resume J r reply w.
Proof.
  destruct w as [ts nt ld fl st inf con]. unfold step, await, set_inflight. simpl.
  rewrite list_lookup_middle by done. simpl.
  by rewrite (delete_middle inf []), app_nil_r.
Qed.

(** A promise in flight settles: its handler is resumed in the world
    without that promise. *)
Lemma step_settle_at (w : World) (n : nat) (r : Request) (reply : Reply) :
  inflight w !! n = Some r ->
  step J (Settle n reply) w
  = resume J r reply (set_inflight (delete n (inflight w)) w).
Proof. intros H. unfold step. by rewrite H. Qed.

Lemma creates_in_flight_await (r : Request) (w : World) :
  creates_in_flight (await r w) =
  creates_in_flight w + (if is_create r then 1 else 0).
Proof.
  unfold creates_in_flight, await. simpl.
  rewrite List.filter_app, length_app. simpl. by destruct (is_create r).
Qed.

Lemma filter_delete_length {A} (p : A -> bool) (l : list A) :
  forall (n : nat) (x : A),
    l !! n = Some x ->
    length (List.filter p l) =
    length (List.filter p (delete n l)) + (if p x then 1 else 0).
Proof.
  induction l as [|y l IH]; intros [|n] x Hx; simpl in *; try done.
  - injection Hx as ->. destruct (p x); simpl; lia.
  - specialize (IH n x Hx). destruct (p y); simpl; lia.
Qed.

(** *** Mounting *)

Lemma mount_absent :
  mount J None = Some (useEffect_save J (loadTasks (initial None))).
Proof. reflexivity. Qed.

Lemma mount_parsed (blob : string) (parsed : list Task) :
  truthy blob = true -> JSON_parse J blob = Some parsed ->
  mount J (Some blob) =
  Some (setTasks J parsed (useEffect_save J (loadTasks (initial (Some blob))))).
Proof. intros Ht Hp. unfold mount. simpl. by rewrite Ht, Hp. Qed.

(** A cached empty string is falsy at line 17 and is passed over like
    an absent cache. *)
Lemma mount_empty_blob :
  mount J (Some EmptyString)
  = Some (useEffect_save J (loadTasks (initial (Some EmptyString)))).
Proof. reflexivity. Qed.

(** C2, on the code: when [JSON.parse] throws on the cached blob, the
    load effect ends with that exception and never reaches
    [loadTasks()], whereas an absent cache leaves [tasks] empty and puts
    the remote fetch in flight.  A malformed cache is therefore not
    treated as an absent one. *)
Theorem mount_malformed_cache_throws (blob : string) :
  truthy blob = true -> JSON_parse J blob = None ->
  mount J (Some blob) = None /\
  exists w, mount J None = Some w /\ tasks w = [] /\ inflight w = [LoadTasks].
Proof.
  intros Ht Hp. split.
  - unfold mount. simpl. by rewrite Ht, Hp.
  - eexists. split; [apply mount_absent | done].
Qed.

(** C3: whatever array a session last wrote to the cache, a fresh mount
    on that cache whose remote fetch is rejected ends with that array in
    memory, entry for entry and in the same order. *)
Theorem cache_round_trip (ts : list Task) (previous : World) (error : string) :
  JSONLaws J ->
  exists w0 w1,
    mount J (storage (setTasks J ts previous)) = Some w0 /\
    tasks w0 = ts /\ inflight w0 = [LoadTasks] /\
    step J (Settle 0 (Rejected error)) w0 = Some w1 /\
    tasks w1 = ts /\ inflight w1 = [] /\
    storage w1 = Some (JSON_stringify J ts).
Proof.
  intros [Hrt Hne].
  assert (truthy (JSON_stringify J ts) = true) as Ht.
  { specialize (Hne ts). by destruct (JSON_stringify J ts). }
  eexists _, _. split.
  { simpl. apply mount_parsed; [exact Ht | apply Hrt]. }
  repeat split; reflexivity.
Qed.

(** *** Adding *)

(** C4: a description that is empty once trimmed stops [handleAddTask]
    at line 40: the world is as before, so no create is put in flight
    and the collection is untouched. *)
Theorem handleAddTask_blank (w : World) :
  trim (newTask w) = EmptyString ->
  handleAddTask w = w /\
  inflight (handleAddTask w) = inflight w /\
  tasks (handleAddTask w) = tasks w.
Proof.
  intros H. assert (handleAddTask w = w) as ->; [|done].
  unfold handleAddTask. by rewrite H.
Qed.

(** A submit while the create is pending is blocked by the disabled
    button. *)
Lemma submit_pending (w : World) : loading w = true -> submit w = w.
Proof. intros H. unfold submit, add_disabled. by rewrite H. Qed.

(** One event keeps the pending flag and the creates in flight in step:
    the flag is up exactly while one create is in flight, and there is
    never a second one. *)
Lemma step_gated (e : Event) (w w' : World) :
  step J e w = Some w' ->
  creates_in_flight w = (if loading w then 1 else 0) ->
  creates_in_flight w' = (if loading w' then 1 else 0).
Proof.
  destruct e as [v| |task|i|f|n reply]; simpl; intros Hstep Hinv.
  - injection Hstep as <-. unfold change, creates_in_flight in *.
    by destruct (loading w) eqn:Hl; simpl; rewrite ?Hl.
  - injection Hstep as <-. unfold submit, add_disabled.
    destruct (loading w) eqn:Hl; simpl; [by rewrite Hl|].
    unfold handleAddTask.
    destruct (truthy (trim (newTask w))); simpl; [|by rewrite Hl].
    rewrite creates_in_flight_await. simpl.
    change (creates_in_flight (setLoading true w)) with (creates_in_flight w).
    by rewrite Hinv.
  - injection Hstep as <-. unfold handleToggleComplete.
    rewrite creates_in_flight_await. simpl. lia.
  - injection Hstep as <-. unfold handleDeleteTask.
    rewrite creates_in_flight_await. simpl. lia.
  - by injection Hstep as <-.
  - destruct (inflight w !! n) as [r|] eqn:Hr; simpl in Hstep; [|done].
    pose proof (filter_delete_length is_create (inflight w) n r Hr) as Hlen.
    fold (creates_in_flight w) in Hlen. rewrite Hinv in Hlen.
    destruct r, reply; simpl in Hstep; try done;
      injection Hstep as <-; unfold creates_in_flight; simpl in *;
      destruct (loading w); lia.
Qed.

Lemma run_gated (es : list Event) :
  forall w w' : World,
    run J es w = Some w' ->
    creates_in_flight w = (if loading w then 1 else 0) ->
    creates_in_flight w' = (if loading w' then 1 else 0).
Proof.
  induction es as [|e es IH]; simpl; intros w w' Hrun Hinv.
  - by injection Hrun as <-.
  - destruct (step J e w) as [w1|] eqn:Hstep; simpl in Hrun; [|done].
    eapply IH; [exact Hrun|]. by eapply step_gated.
Qed.

Lemma mount_gated (saved : option string) (w : World) :
  mount J saved = Some w ->
  creates_in_flight w = (if loading w then 1 else 0).
Proof.
  unfold mount. simpl. intros H.
  destruct saved as [blob|]; simpl in H.
  - destruct (truthy blob); simpl in H.
    + destruct (JSON_parse J blob); simpl in H; [|done].
      by injection H as <-.
    + by injection H as <-.
  - by injection H as <-.
Qed.

(** C1: while a create is pending, issuing the add again (a submit of
    the form, the one place [handleAddTask] is called from) changes
    nothing at all, so neither the length of the collection nor the
    pending flag; and along every run of the page from its mount at
    most one create is in flight, the flag being up exactly then. *)
Theorem submit_gated_while_pending :
  (forall w : World, loading w = true -> submit w = w) /\
  (forall (saved : option string) (es : list Event) (w0 w : World),
      mount J saved = Some w0 -> run J es w0 = Some w ->
      creates_in_flight w <= 1 /\
      (loading w = true <-> creates_in_flight w = 1)).
Proof.
  split; [exact submit_pending|].
  intros saved es w0 w Hm Hr.
  pose proof (run_gated es w0 w Hr (mount_gated saved w0 Hm)) as H.
  rewrite H. destruct (loading w); simpl; (split; [lia|]); split; intros; (done || lia).
Qed.

(** *** Toggling and deleting *)

(** The continuation of a toggle writes into the array its closure
    captured, whatever [tasks] holds when the promise settles. *)
Lemma resume_ToggleComplete (snapshot : list Task) (task updated : Task) (w : World) :
  resume J (ToggleComplete snapshot task) (Fulfilled_task updated) w
  = Some (setTasks J (map (replace_by_id task updated) snapshot) w).
Proof. reflexivity. Qed.

Lemma resume_DeleteTask (snapshot : list Task) (i : string) (w : World) :
  resume J (DeleteTask snapshot i) Fulfilled_void w
  = Some (setTasks J (List.filter (other_id i) snapshot) w).
Proof. reflexivity. Qed.




End ControllerFacts.

Lemma mount_malformed_cache_throws_witness :
  truthy "{" = true /\ JSON_parse Ref.json "{" = None /\
  mount Ref.json (Some "{") = None /\
  exists w, mount Ref.json None = Some w /\ tasks w = [] /\ inflight w = [LoadTasks].
Proof.
  split; [reflexivity|]. split; [reflexivity|].
  exact (mount_malformed_cache_throws Ref.json "{" eq_refl eq_refl).
Defined.

Lemma cache_round_trip_witness :
  JSONLaws Ref.json /\
  exists w0 w1,
    mount Ref.json (storage (setTasks Ref.json [T1; T2] (initial None))) = Some w0 /\
    tasks w0 = [T1; T2] /\ inflight w0 = [LoadTasks] /\
    step Ref.json (Settle 0 (Rejected "Network Error")) w0 = Some w1 /\
    tasks w1 = [T1; T2] /\ inflight w1 = [] /\
    storage w1 = Some (JSON_stringify Ref.json [T1; T2]).
Proof.
  split; [exact json_laws|].
  exact (cache_round_trip Ref.json [T1; T2] (initial None) "Network Error" json_laws).
Defined.

Lemma handleAddTask_blank_witness :
  trim (newTask (setNewTask "   " mounted_world)) = EmptyString /\
  handleAddTask (setNewTask "   " mounted_world) = setNewTask "   " mounted_world /\
  inflight (handleAddTask (setNewTask "   " mounted_world))
    = inflight (setNewTask "   " mounted_world) /\
  tasks (handleAddTask (setNewTask "   " mounted_world))
    = tasks (setNewTask "   " mounted_world).
Proof.
  split; [reflexivity|].
  exact (handleAddTask_blank (setNewTask "   " mounted_world) eq_refl).
Defined.

Lemma submit_gated_while_pending_witness :
  loading pending_world = true /\
  submit pending_world = pending_world /\
  mount Ref.json None = Some mounted_world /\
  run Ref.json [Change "Buy milk"; Submit] mounted_world = Some pending_world /\
  creates_in_flight pending_world <= 1 /\
  (loading pending_world = true <-> creates_in_flight pending_world = 1).
Proof.
  destruct (submit_gated_while_pending Ref.json) as [Hgate Hinv].
  split; [reflexivity|]. split; [exact (Hgate pending_world eq_refl)|].
  split; [reflexivity|]. split; [reflexivity|].
  exact (Hinv None [Change "Buy milk"; Submit] mounted_world pending_world
              eq_refl eq_refl).
Defined.







(** ** The scenarios of the specification, run on the model *)

(** Scenario A: on an empty collection a fulfilled add of "Buy milk"
    gives the one-task collection and the counters 1, 1, 0. *)
Example scenario_add :
  exists w,
    run Ref.json [Settle 0 (Fulfilled_tasks []); Change "Buy milk"; Submit;
                  Settle 0 (Fulfilled_task T1)] mounted_world = Some w /\
    tasks w = [T1] /\ stats (tasks w) = mkStats 1 1 0 /\
    loading w = false /\ newTask w = EmptyString /\
    storage w = Some (Ref.stringify [T1]).
Proof. eexists. split; [reflexivity|]. repeat split. Qed.

(** Scenario B: toggling the only task, fulfilled with the completed
    task, gives the counters 1, 0, 1. *)
Example scenario_toggle :
  exists w,
    run Ref.json [Toggle T1; Settle 0 (Fulfilled_task T1_done)]
        (write_tasks [T1] listed_world) = Some w /\
    tasks w = [T1_done] /\ stats (tasks w) = mkStats 1 0 1.
Proof. eexists. split; [reflexivity|]. repeat split. Qed.

(** Scenario D: two active tasks and one completed, filter 'completed':
    one task is shown. *)
Example scenario_filter :
  length (filteredTasks [T1; T2; mkTask "3" "Read" false] Completed) = 1.
Proof. reflexivity. Qed.

(** The disjointness in C8 rests on the ids being unique: two entries
    that share an id, one of them completed, put that id in both views. *)
Example shared_id_in_both_views :
  idset (filteredTasks [T1; T1_done] Active)
  = idset (filteredTasks [T1; T1_done] Completed).
Proof. reflexivity. Qed.

(** A handler writes into the array of the render it was called in: of
    two toggles called on the same render, the one that settles last
    brings the other's entry back to what it was at the call. *)
Example settle_uses_snapshot :
  exists w,
    run Ref.json [Toggle T1; Toggle T2;
                  Settle 0 (Fulfilled_task T1_done);
                  Settle 0 (Fulfilled_task (mkTask "2" "Walk the dog" false))]
        listed_world = Some w /\
    tasks w = [T1; mkTask "2" "Walk the dog" false].
Proof. eexists. split; reflexivity. Qed.

(** * More of the component *)

(** ** The list that is shown and the counters *)

Lemma filter_sublist {A} (p : A -> bool) (l : list A) :
  List.filter p l `sublist_of` l.
Proof.
  induction l as [|x l IH]; simpl; [constructor|].
  destruct (p x); [by apply sublist_skip | by apply sublist_cons].
Qed.

Lemma filteredTasks_NoDup (l : list Task) (f : FilterType) :
  NoDup (ids l) -> NoDup (ids (filteredTasks l f)).
Proof.
  intros Hnd. eapply sublist_NoDup; [exact Hnd|].
  unfold ids. change (map id) with (fmap (M:=list) id).
  apply fmap_sublist, filter_sublist.
Qed.

(** The three badges (lines 78-82) count the rows the three filters
    would show (lines 72-76). *)
Theorem stats_count_filtered (l : list Task) :
  total (stats l) = length (filteredTasks l All) /\
  active (stats l) = length (filteredTasks l Active) /\
  completed (stats l) = length (filteredTasks l Completed).
Proof.
  split; [|done]. simpl. symmetry. f_equal. apply filter_true_id.
Qed.

(** The shown tasks are the tasks that pass the filter, in the order of
    the collection, so never more than the collection holds; unique ids
    stay unique among them. *)
Theorem filteredTasks_sublist (l : list Task) (f : FilterType) :
  filteredTasks l f `sublist_of` l /\
  length (filteredTasks l f) <= length l /\
  (forall t, t ∈ filteredTasks l f <-> t ∈ l /\ keep f t = true) /\
  (NoDup (ids l) -> NoDup (ids (filteredTasks l f))).
Proof.
  assert (filteredTasks l f `sublist_of` l) as Hsub by apply filter_sublist.
  split; [exact Hsub|]. split; [by apply sublist_length|].
  split; [intros t; apply elem_of_filteredTasks|].
  intros Hnd. eapply sublist_NoDup; [exact Hnd|].
  unfold ids. change (map id) with (fmap (M:=list) id). by apply fmap_sublist.
Qed.

(** ** What is rendered *)

Lemma filter_nil_iff {A} (p : A -> bool) (l : list A) :
  List.filter p l = [] <-> forall x, x ∈ l -> p x = false.
Proof.
  induction l as [|y l IH]; simpl.
  - split; [intros _ x Hx; by apply elem_of_nil in Hx | done].
  - destruct (p y) eqn:Hy; split.
    + done.
    + intros H. specialize (H y (list_elem_of_here _ _)). congruence.
    + intros H x Hx. apply elem_of_cons in Hx as [->|Hx]; [done|].
      by apply IH.
    + intros H. apply IH. intros x Hx. apply H. by apply list_elem_of_further.
Qed.

(** The empty state of line 145 is rendered exactly when no task passes
    the filter: under 'all' when the collection is empty, under 'active'
    when every task is completed (an empty collection included), under
    'completed' when none is. *)
Theorem empty_state_iff (w : World) :
  ((exists title text, task_list w = EmptyState title text) <->
   forall t, t ∈ tasks w -> keep (filter w) t = false) /\
  (filter w = All ->
   ((exists title text, task_list w = EmptyState title text) <-> tasks w = [])) /\
  (filter w = Active ->
   ((exists title text, task_list w = EmptyState title text) <->
    forall t, t ∈ tasks w -> isCompleted t = true)) /\
  (filter w = Completed ->
   ((exists title text, task_list w = EmptyState title text) <->
    forall t, t ∈ tasks w -> isCompleted t = false)).
Proof.
  assert ((exists title text, task_list w = EmptyState title text) <->
          forall t, t ∈ tasks w -> keep (filter w) t = false) as Hmain.
  { unfold task_list, filteredTasks. rewrite <- filter_nil_iff.
    destruct (List.filter (keep (filter w)) (tasks w)) as [|t l]; simpl.
    - split; [done | eauto].
    - split; [intros (? & ? & ?); done | done]. }
  split; [exact Hmain|].
  split; [|split]; intros Hf; rewrite Hmain, Hf; simpl; split.
  - intros H. destruct (tasks w) as [|t l]; [done|].
    specialize (H t (list_elem_of_here _ _)). done.
  - intros -> t Ht. by apply elem_of_nil in Ht.
  - intros H t Ht. specialize (H t Ht). by destruct (isCompleted t).
  - intros H t Ht. by rewrite (H t Ht).
  - done.
  - done.
Qed.

(** When rows are rendered there is at least one, they are the shown
    tasks in order, each checkbox shows its task's flag, and the events
    a row can fire are the toggle of a task of the collection and the
    delete of that task's id; with unique ids the React keys are
    unique. *)
Theorem rows_of_collection (w : World) (rows : list Row) :
  task_list w = Rows rows ->
  rows <> [] /\
  map key rows = ids (filteredTasks (tasks w) (filter w)) /\
  (forall r, r ∈ rows ->
     exists t, t ∈ tasks w /\ keep (filter w) t = true /\
       key r = id t /\ checked r = isCompleted t /\ label r = description t /\
       onChange r = Toggle t /\ onClick r = Delete (id t)) /\
  (NoDup (ids (tasks w)) -> NoDup (map key rows)).
Proof.
  intros H. unfold task_list in H. cbv zeta in H.
  destruct (Nat.eqb (length (filteredTasks (tasks w) (filter w))) 0) eqn:Hlen;
    [done|].
  injection H as <-. apply Nat.eqb_neq in Hlen.
  assert (map key (map row (filteredTasks (tasks w) (filter w)))
          = ids (filteredTasks (tasks w) (filter w))) as Hkeys.
  { unfold ids. rewrite List.map_map. done. }
  split; [by destruct (filteredTasks (tasks w) (filter w))|].
  split; [exact Hkeys|]. split.
  - intros r Hr. change (map row) with (fmap (M:=list) row) in Hr.
    apply list_elem_of_fmap in Hr as (t' & -> & Ht').
    apply elem_of_filteredTasks in Ht' as [Hin Hk].
    exists t'. by repeat split.
  - intros Hnd. rewrite Hkeys. by apply filteredTasks_NoDup.
Qed.

(** ** The controller along its runs *)

Lemma truthy_trim_iff (s : string) :
  truthy (trim s) = true <->
  forallb isWhiteSpace (String.list_ascii_of_string s) = false.
Proof.
  rewrite <- not_true_iff_false, <- trim_empty_iff.
  destruct (trim s); simpl; split; done.
Qed.

Section ComponentFacts.

Variable J : JSON.

Lemma run_invariant (P : World -> Prop) :
  (forall e w w', step J e w = Some w' -> P w -> P w') ->
  forall es w w', run J es w = Some w' -> P w -> P w'.
Proof.
  intros Hstep es. induction es as [|e es IH]; simpl; intros w w' Hrun HP.
  - by injection Hrun as <-.
  - destruct (step J e w) as [w1|] eqn:He; simpl in Hrun; [|done].
    eapply IH; [exact Hrun|]. by eapply Hstep.
Qed.

(** The promise at position [length l1] settles. *)
Lemma step_settle_middle (l1 l2 : list Request) (r : Request) (reply : Reply)
      (w : World) :
  inflight w = l1 ++ r :: l2 ->
  step J (Settle (length l1) reply) w
  = resume J r reply (set_inflight (l1 ++ l2) w).
Proof.
  intros H. unfold step. rewrite H.
  rewrite list_lookup_middle by done. simpl. by rewrite delete_middle.
Qed.

(** *** Mounting *)

(** What a mount that succeeds leaves: the fetch in flight and nothing
    else, the flag down, the filter 'all', the input and the log empty,
    and the cache written from the collection. *)
Lemma mount_state (saved : option string) (w : World) :
  mount J saved = Some w ->
  inflight w = [LoadTasks] /\ loading w = false /\ filter w = All /\
  newTask w = EmptyString /\ console w = [] /\
  storage w = Some (JSON_stringify J (tasks w)).
Proof.
  unfold mount. simpl. intros H.
  destruct saved as [blob|]; simpl in H.
  - destruct (truthy blob); simpl in H.
    + destruct (JSON_parse J blob); simpl in H; [|done].
      by injection H as <-.
    + by injection H as <-.
  - by injection H as <-.
Qed.

(** When the cache is absent or holds the empty string, or when
    [JSON.parse] returns an array of tasks for it, the mount succeeds:
    the page starts with that array (with nothing, for an absent or
    empty cache), the fetch in flight and nothing else, the flag down,
    the filter 'all', the input empty, and the cache rewritten with the
    serialisation of that array. *)
Theorem mount_starts (saved : option string) (parsed : list Task) :
  match saved with
  | None => parsed = []
  | Some blob => if truthy blob then JSON_parse J blob = Some parsed else parsed = []
  end ->
  exists w, mount J saved = Some w /\
    tasks w = parsed /\ inflight w = [LoadTasks] /\ loading w = false /\
    filter w = All /\ newTask w = EmptyString /\ console w = [] /\
    storage w = Some (JSON_stringify J parsed).
Proof.
  unfold mount. simpl. destruct saved as [blob|]; simpl.
  - destruct (truthy blob); simpl.
    + intros ->. simpl. eexists. split; [reflexivity|]. by repeat split.
    + intros ->. eexists. split; [reflexivity|]. by repeat split.
  - intros ->. eexists. split; [reflexivity|]. by repeat split.
Qed.

(** *** The cache *)

Lemma step_cache (e : Event) (w w' : World) :
  step J e w = Some w' ->
  storage w = Some (JSON_stringify J (tasks w)) ->
  storage w' = Some (JSON_stringify J (tasks w')).
Proof.
  destruct e as [v| |task|i|f|n reply]; simpl; intros Hstep Hinv.
  - injection Hstep as <-. unfold change. by destruct (loading w).
  - injection Hstep as <-. unfold submit, handleAddTask.
    destruct (add_disabled w); [done|].
    by destruct (negb (truthy (trim (newTask w)))).
  - by injection Hstep as <-.
  - by injection Hstep as <-.
  - by injection Hstep as <-.
  - destruct (inflight w !! n) as [r|]; simpl in Hstep; [|done].
    destruct r, reply; simpl in Hstep; try done; by injection Hstep as <-.
Qed.

(** Along every run of the page, whatever the user does and however the
    promises settle, the cached text is the serialisation of the
    collection in memory. *)
Theorem cache_mirrors_tasks (saved : option string) (es : list Event)
        (w0 w : World) :
  mount J saved = Some w0 -> run J es w0 = Some w ->
  storage w = Some (JSON_stringify J (tasks w)).
Proof.
  intros Hm Hr.
  apply (run_invariant (fun w => storage w = Some (JSON_stringify J (tasks w)))
           step_cache es w0 w Hr).
  by apply (mount_state saved).
Qed.

(** *** Rejections *)

(** Whichever handler is waiting, a rejected promise is caught: the
    handler logs one line and leaves the collection, the cache, the
    input and the filter as they are; only a rejected create also lowers
    the pending flag. *)
Theorem rejection_is_logged (w : World) (n : nat) (r : Request) (error : string) :
  inflight w !! n = Some r ->
  exists w', step J (Settle n (Rejected error)) w = Some w' /\
    tasks w' = tasks w /\ storage w' = storage w /\
    newTask w' = newTask w /\ filter w' = filter w /\
    inflight w' = delete n (inflight w) /\
    console w' = console w ++ [(failure_message r, error)] /\
    loading w' = (if is_create r then false else loading w).
Proof.
  intros Hr. unfold step. rewrite Hr. simpl.
  destruct r; simpl; eexists; (split; [reflexivity|]); by repeat split.
Qed.

(** *** Adding *)

(** With something other than white space in the input,
    [handleAddTask] raises the flag and puts one create in flight,
    carrying the input as typed and the array of its render.  Whatever
    happens before the answer: fulfilled, the collection becomes that
    array followed by the server's task, the input is emptied and the
    flag lowered; when the collection is still that array, the task is
    appended to the current collection, whose entries keep their places,
    and the total grows by one.  Rejected, the collection, the cache and
    the input stay and the flag is lowered. *)
Theorem add_answer_writes_snapshot (w : World) (task : Task) (error : string)
        (es : list Event) (w' : World) (n : nat) :
  truthy (trim (newTask w)) = true ->
  run J es (handleAddTask w) = Some w' ->
  inflight w' !! n = Some (AddTask (tasks w) (newTask w)) ->
  (loading (handleAddTask w) = true /\ tasks (handleAddTask w) = tasks w /\
   newTask (handleAddTask w) = newTask w /\
   inflight (handleAddTask w) = inflight w ++ [AddTask (tasks w) (newTask w)] /\
   api_call (AddTask (tasks w) (newTask w)) = createTask (newTask w)) /\
  (exists w2, step J (Settle n (Fulfilled_task task)) w' = Some w2 /\
     tasks w2 = tasks w ++ [task] /\
     newTask w2 = EmptyString /\ loading w2 = false /\
     (tasks w' = tasks w ->
      (forall k t, tasks w' !! k = Some t -> tasks w2 !! k = Some t) /\
      total (stats (tasks w2)) = S (total (stats (tasks w'))))) /\
  (exists w3, step J (Settle n (Rejected error)) w' = Some w3 /\
     tasks w3 = tasks w' /\ storage w3 = storage w' /\
     newTask w3 = newTask w' /\ loading w3 = false).
Proof.
  intros Hv _ Hn. split.
  { unfold handleAddTask. rewrite Hv. simpl. by repeat split. }
  rewrite !(step_settle_at J w' n _ _ Hn). split.
  - eexists. split; [reflexivity|]. simpl.
    split; [done|]. split; [done|]. split; [done|].
    intros ->. split.
    + intros k t Hk. by apply lookup_app_l_Some.
    + rewrite length_app. simpl. lia.
  - eexists. split; [reflexivity|]. by repeat split.
Qed.

(** The button of line 101 is enabled exactly when no create is pending
    and the input holds something other than white space; a submit then
    starts one create, and a submit on the disabled button changes
    nothing. *)
Theorem add_button_enabled_iff (w : World) :
  (add_disabled w = false <->
   loading w = false /\
   forallb isWhiteSpace (String.list_ascii_of_string (newTask w)) = false) /\
  (add_disabled w = false ->
   creates_in_flight (submit w) = S (creates_in_flight w) /\
   loading (submit w) = true /\
   inflight (submit w) = inflight w ++ [AddTask (tasks w) (newTask w)]) /\
  (add_disabled w = true -> submit w = w).
Proof.
  unfold submit, add_disabled. rewrite <- truthy_trim_iff. split; [|split].
  - destruct (loading w), (truthy (trim (newTask w))); simpl; split;
      (done || (by intros [? ?])).
  - intros H. rewrite H. unfold handleAddTask.
    destruct (loading w); [done|]. simpl in H.
    destruct (truthy (trim (newTask w))); [|done]. simpl.
    rewrite creates_in_flight_await. simpl. split; [|done].
    change (creates_in_flight (setLoading true w)) with (creates_in_flight w). lia.
  - by intros ->.
Qed.

Lemma no_create_in_flight (w : World) (snapshot : list Task) (d : string) :
  creates_in_flight w = 0 -> AddTask snapshot d ∉ inflight w.
Proof.
  unfold creates_in_flight. intros H Hin.
  apply list_elem_of_In in Hin.
  assert (In (AddTask snapshot d) (List.filter is_create (inflight w))) as Hf
    by (apply filter_In; by split).
  destruct (List.filter is_create (inflight w)); [done | discriminate].
Qed.

Lemma step_create_description (e : Event) (w w' : World) :
  step J e w = Some w' ->
  creates_in_flight w = (if loading w then 1 else 0) /\
  (forall snapshot d, AddTask snapshot d ∈ inflight w ->
     d = newTask w /\ truthy (trim d) = true) ->
  creates_in_flight w' = (if loading w' then 1 else 0) /\
  (forall snapshot d, AddTask snapshot d ∈ inflight w' ->
     d = newTask w' /\ truthy (trim d) = true).
Proof.
  intros Hstep [Hc Hd]. split; [by eapply step_gated|].
  destruct e as [v| |task|i|f|n reply]; simpl in Hstep.
  - injection Hstep as <-. unfold change.
    destruct (loading w) eqn:Hl; [exact Hd|]. simpl.
    intros snapshot d Hin. by apply no_create_in_flight in Hin.
  - injection Hstep as <-. unfold submit, add_disabled.
    destruct (loading w) eqn:Hl; simpl; [exact Hd|]. unfold handleAddTask.
    destruct (truthy (trim (newTask w))) eqn:Hv; simpl; [|exact Hd].
    intros snapshot d Hin. apply elem_of_app in Hin as [Hin|Hin].
    + by apply no_create_in_flight in Hin.
    + apply list_elem_of_singleton in Hin. by injection Hin as _ ->.
  - injection Hstep as <-. simpl. intros snapshot d Hin.
    apply elem_of_app in Hin as [Hin|Hin]; [by apply Hd in Hin|].
    by apply list_elem_of_singleton in Hin.
  - injection Hstep as <-. simpl. intros snapshot d Hin.
    apply elem_of_app in Hin as [Hin|Hin]; [by apply Hd in Hin|].
    by apply list_elem_of_singleton in Hin.
  - by injection Hstep as <-.
  - destruct (inflight w !! n) as [r|] eqn:Hr; simpl in Hstep; [|done].
    pose proof (filter_delete_length is_create (inflight w) n r Hr) as Hlen.
    fold (creates_in_flight w) in Hlen. rewrite Hc in Hlen.
    assert (forall snapshot d, AddTask snapshot d ∈ delete n (inflight w) ->
              AddTask snapshot d ∈ inflight w) as Hsub
      by (intros ? ?; apply list_elem_of_delete_inv).
    destruct r, reply; simpl in Hstep; try done; injection Hstep as <-; simpl;
      intros snapshot d Hin;
      try (by apply (Hd snapshot), Hsub);
      exfalso; revert Hin;
      apply (no_create_in_flight (set_inflight (delete n (inflight w)) w));
      simpl in Hlen;
      assert (length (List.filter is_create (delete n (inflight w))) = 0) as H0
        by (destruct (loading w); lia);
      exact H0.
Qed.

(** Along every run of the page, a create that is in flight carries a
    description with something other than white space in it, namely the
    text still standing in the (disabled) input, and the pending flag is
    up: the service is never sent a blank description. *)
Theorem create_never_blank (saved : option string) (es : list Event)
        (w0 w : World) (snapshot : list Task) (d : string) :
  mount J saved = Some w0 -> run J es w0 = Some w ->
  AddTask snapshot d ∈ inflight w ->
  truthy (trim d) = true /\ d = newTask w /\ loading w = true.
Proof.
  intros Hm Hr Hin.
  pose proof (run_invariant _ step_create_description es w0 w Hr) as Hinv.
  destruct Hinv as [Hc Hd].
  { split; [by eapply mount_gated|].
    destruct (mount_state saved w0 Hm) as (Hfl & _). rewrite Hfl.
    intros ? ? H. apply list_elem_of_singleton in H. done. }
  destruct (Hd snapshot d Hin) as [-> Hv]. repeat split; [done|].
  destruct (loading w); [done|]. by apply no_create_in_flight in Hin.
Qed.

(** *** The fetch *)

(** The fetched list replaces the collection wholesale: a task created
    while the fetch of the mount was still in flight is in the
    collection after its create is fulfilled, and the collection is
    exactly the fetched list, cache included, once the fetch is
    fulfilled after that. *)
Theorem fetched_list_replaces_collection (saved : option string) (w0 : World)
        (v : string) (t : Task) (data : list Task) :
  mount J saved = Some w0 -> truthy (trim v) = true ->
  exists w1 w2,
    run J [Change v; Submit; Settle 1 (Fulfilled_task t)] w0 = Some w1 /\
    tasks w1 = tasks w0 ++ [t] /\
    step J (Settle 0 (Fulfilled_tasks data)) w1 = Some w2 /\
    tasks w2 = data /\ storage w2 = Some (JSON_stringify J data) /\
    inflight w2 = [].
Proof.
  intros Hm Hv.
  destruct (mount_state saved w0 Hm) as (Hfl & Hld & _).
  destruct w0 as [ts nt ld fl st inf con]. simpl in Hfl, Hld. subst inf ld.
  unfold run, step, change, submit, add_disabled, handleAddTask. simpl.
  rewrite Hv. simpl.
  eexists _, _. split; [reflexivity|]. by repeat split.
Qed.

(** *** Toggling and deleting, continued *)

(** Two toggles called on the same render both hold that render's
    array.  When the first is fulfilled its entry is replaced; when the
    second is fulfilled the collection is the array of the call with
    only the second's entry replaced, so the first task is back as it
    was. *)
Theorem later_toggle_drops_earlier (w : World) (a b a' b' : Task) (k : nat) :
  tasks w !! k = Some a -> id a <> id b ->
  exists w1 w2,
    run J [Toggle a; Toggle b; Settle (length (inflight w)) (Fulfilled_task a')] w
      = Some w1 /\
    tasks w1 !! k = Some a' /\
    step J (Settle (length (inflight w)) (Fulfilled_task b')) w1 = Some w2 /\
    tasks w2 = map (replace_by_id b b') (tasks w) /\
    tasks w2 !! k = Some a.
Proof.
  intros Hk Hne. destruct w as [ts nt ld fl st inf con]. simpl in Hk.
  unfold run, step, handleToggleComplete, await, set_inflight. simpl.
  rewrite <- !app_assoc. simpl.
  rewrite list_lookup_middle by done. simpl.
  rewrite (delete_middle inf).
  eexists _, _. split; [reflexivity|]. split.
  { simpl. rewrite lookup_map_replace, Hk. simpl. by rewrite replace_by_id_hit. }
  simpl. rewrite list_lookup_middle by done. simpl.
  split; [reflexivity|]. simpl. split; [done|].
  rewrite lookup_map_replace, Hk. simpl. by rewrite replace_by_id_miss.
Qed.

(** When the array a handler kept has unique ids, the collection after
    its fulfilled answer has unique ids: always for a delete; for a
    toggle when the server's task carries the id that was sent; and for
    an add exactly when the id of the created task is not in that
    array. *)
Theorem unique_ids_after_answer (w' : World) (n : nat) (snapshot : list Task) :
  NoDup (ids snapshot) ->
  (forall i, inflight w' !! n = Some (DeleteTask snapshot i) ->
     exists w2, step J (Settle n Fulfilled_void) w' = Some w2 /\
       NoDup (ids (tasks w2))) /\
  (forall task updated,
     inflight w' !! n = Some (ToggleComplete snapshot task) ->
     id updated = id task ->
     exists w2, step J (Settle n (Fulfilled_task updated)) w' = Some w2 /\
       NoDup (ids (tasks w2))) /\
  (forall d created, inflight w' !! n = Some (AddTask snapshot d) ->
     exists w2, step J (Settle n (Fulfilled_task created)) w' = Some w2 /\
       (NoDup (ids (tasks w2)) <-> id created ∉ ids snapshot)).
Proof.
  intros Hnd. split; [|split].
  - intros i Hn. rewrite (step_settle_at J w' n _ _ Hn).
    eexists. split; [reflexivity|]. simpl.
    eapply sublist_NoDup; [exact Hnd|]. unfold ids.
    change (map id) with (fmap (M:=list) id). apply fmap_sublist, filter_sublist.
  - intros task updated Hn Hid. rewrite (step_settle_at J w' n _ _ Hn).
    eexists. split; [reflexivity|]. simpl. by rewrite ids_map_replace.
  - intros d created Hn. rewrite (step_settle_at J w' n _ _ Hn).
    eexists. split; [reflexivity|]. simpl.
    unfold ids. rewrite List.map_app. simpl. rewrite NoDup_app. split.
    + intros (_ & Hdis & _) Hin. apply (Hdis _ Hin). apply list_elem_of_here.
    + intros Hni. split; [exact Hnd|]. split; [|apply NoDup_singleton].
      intros x Hx Hx'. apply list_elem_of_singleton in Hx'. by subst.
Qed.

(** *** The fetch happens once *)

Lemma step_fetches (e : Event) (w w' : World) :
  step J e w = Some w' -> fetches_in_flight w' <= fetches_in_flight w.
Proof.
  unfold fetches_in_flight.
  destruct e as [v| |task|i|f|n reply]; simpl; intros Hstep.
  - injection Hstep as <-. unfold change. by destruct (loading w).
  - injection Hstep as <-. unfold submit, handleAddTask.
    destruct (add_disabled w); [done|].
    destruct (negb (truthy (trim (newTask w)))); [done|]. simpl.
    rewrite List.filter_app, length_app. simpl. lia.
  - injection Hstep as <-. simpl. rewrite List.filter_app, length_app. simpl. lia.
  - injection Hstep as <-. simpl. rewrite List.filter_app, length_app. simpl. lia.
  - by injection Hstep as <-.
  - destruct (inflight w !! n) as [r|] eqn:Hr; simpl in Hstep; [|done].
    pose proof (filter_delete_length is_fetch (inflight w) n r Hr) as Hlen.
    assert (length (List.filter is_fetch (delete n (inflight w)))
            <= length (List.filter is_fetch (inflight w))) as H0 by lia.
    destruct r, reply; simpl in Hstep; try done; injection Hstep as <-;
      exact H0.
Qed.

(** [getTasks] is called by the mount and by nothing else: along every
    run at most one fetch is in flight, and once it has settled, however
    it settled, none is ever in flight again. *)
Theorem fetch_only_at_mount (saved : option string) (es es' : list Event)
        (w0 w w' : World) :
  mount J saved = Some w0 -> run J es w0 = Some w ->
  fetches_in_flight w <= 1 /\
  (fetches_in_flight w = 0 -> run J es' w = Some w' -> fetches_in_flight w' = 0).
Proof.
  intros Hm Hr.
  assert (forall es w w', run J es w = Some w' ->
            fetches_in_flight w' <= fetches_in_flight w) as Hmono.
  { clear. intros es. induction es as [|e es IH]; simpl; intros w w' Hrun.
    - by injection Hrun as <-.
    - destruct (step J e w) as [w1|] eqn:He; simpl in Hrun; [|done].
      pose proof (step_fetches e w w1 He). specialize (IH w1 w' Hrun). lia. }
  split.
  - pose proof (Hmono es w0 w Hr) as H.
    destruct (mount_state saved w0 Hm) as (Hfl & _).
    unfold fetches_in_flight in H at 2. rewrite Hfl in H. simpl in H. lia.
  - intros H0 Hr'. pose proof (Hmono es' w w' Hr'). lia.
Qed.

(** *** The counters after a toggle and after a delete *)

Lemma filter_insert_length {A} (p : A -> bool) (l : list A) :
  forall (k : nat) (x y : A),
    l !! k = Some x ->
    length (List.filter p (<[k:=y]> l)) + (if p x then 1 else 0)
    = length (List.filter p l) + (if p y then 1 else 0).
Proof.
  induction l as [|z l IH]; intros [|k] x y Hx; simpl in *; try done.
  - injection Hx as ->. destruct (p x), (p y); simpl; lia.
  - specialize (IH k x y Hx). destruct (p z); simpl; lia.
Qed.

(** When the array a toggle's handler kept has unique ids and holds the
    task, and the server answers with the flag inverted, the counters
    after the fulfilled answer are those of that array with one unit
    moved from active to completed for an active task, and back for a
    completed one; the total is that of the array. *)
Theorem stats_after_toggle (w' : World) (n : nat) (snapshot : list Task)
        (task updated : Task) (k : nat) :
  inflight w' !! n = Some (ToggleComplete snapshot task) ->
  NoDup (ids snapshot) -> snapshot !! k = Some task ->
  isCompleted updated = negb (isCompleted task) ->
  exists w2,
    step J (Settle n (Fulfilled_task updated)) w' = Some w2 /\
    total (stats (tasks w2)) = total (stats snapshot) /\
    (if isCompleted task
     then active (stats (tasks w2)) = S (active (stats snapshot)) /\
          S (completed (stats (tasks w2))) = completed (stats snapshot)
     else S (active (stats (tasks w2))) = active (stats snapshot) /\
          completed (stats (tasks w2)) = S (completed (stats snapshot))).
Proof.
  intros Hn Hnd Hk Hflag. rewrite (step_settle_at J w' n _ _ Hn).
  eexists. split; [apply resume_ToggleComplete|]. simpl.
  rewrite (map_replace_insert _ _ _ k Hnd Hk).
  pose proof (filter_insert_length (fun t => negb (isCompleted t)) snapshot
                k task updated Hk) as Ha.
  pose proof (filter_insert_length (fun t => isCompleted t) snapshot
                k task updated Hk) as Hc.
  simpl in Ha, Hc. rewrite Hflag in Ha, Hc.
  split; [apply length_insert|].
  destruct (isCompleted task); simpl in *; lia.
Qed.

(** When the array a delete's handler kept has unique ids and holds an
    entry of the deleted id, the counters after the fulfilled answer are
    those of that array with the total and the counter of that entry's
    state lowered by one; the other counter is that of the array. *)
Theorem stats_after_delete (w' : World) (n : nat) (snapshot : list Task)
        (t : Task) (k : nat) :
  inflight w' !! n = Some (DeleteTask snapshot (id t)) ->
  NoDup (ids snapshot) -> snapshot !! k = Some t ->
  exists w2,
    step J (Settle n Fulfilled_void) w' = Some w2 /\
    S (total (stats (tasks w2))) = total (stats snapshot) /\
    (if isCompleted t
     then active (stats (tasks w2)) = active (stats snapshot) /\
          S (completed (stats (tasks w2))) = completed (stats snapshot)
     else S (active (stats (tasks w2))) = active (stats snapshot) /\
          completed (stats (tasks w2)) = completed (stats snapshot)).
Proof.
  intros Hn Hnd Hk. rewrite (step_settle_at J w' n _ _ Hn).
  eexists. split; [apply resume_DeleteTask|]. simpl.
  rewrite (filter_other_id_delete (id t) snapshot k t Hnd Hk eq_refl).
  pose proof (filter_delete_length (fun t => negb (isCompleted t)) snapshot
                k t Hk) as Ha.
  pose proof (filter_delete_length (fun t => isCompleted t) snapshot k t Hk) as Hc.
  pose proof (lookup_lt_Some _ _ _ Hk) as Hlt.
  simpl in Ha, Hc.
  split; [rewrite length_delete by eauto; lia|].
  destruct (isCompleted t); simpl in *; lia.
Qed.

End ComponentFacts.

(** ** The properties above at sample worlds *)

Lemma filteredTasks_sublist_witness :
  NoDup (ids [T1; T2]) /\ NoDup (ids (filteredTasks [T1; T2] Active)).
Proof.
  assert (NoDup (ids [T1; T2])) as H
    by (apply (bool_decide_unpack _); vm_compute; exact I).
  split; [exact H|].
  exact (proj2 (proj2 (proj2 (filteredTasks_sublist [T1; T2] Active))) H).
Defined.

Lemma empty_state_iff_witness :
  filter (setFilter Completed (write_tasks [T1] listed_world)) = Completed /\
  (forall t, t ∈ tasks (setFilter Completed (write_tasks [T1] listed_world)) ->
     isCompleted t = false) /\
  exists title text,
    task_list (setFilter Completed (write_tasks [T1] listed_world))
    = EmptyState title text.
Proof.
  assert (forall t, t ∈ tasks (setFilter Completed (write_tasks [T1] listed_world)) ->
            isCompleted t = false) as H.
  { intros t Ht. apply list_elem_of_singleton in Ht. by subst. }
  split; [reflexivity|]. split; [exact H|].
  exact (proj2 (proj2 (proj2 (proj2
           (empty_state_iff (setFilter Completed (write_tasks [T1] listed_world)))))
           eq_refl) H).
Defined.

Lemma rows_of_collection_witness :
  task_list listed_world = Rows [row T1; row T2] /\
  map key [row T1; row T2] = ["1"; "2"] /\
  NoDup (map key [row T1; row T2]).
Proof.
  assert (NoDup (ids (tasks listed_world))) as H
    by (apply (bool_decide_unpack _); vm_compute; exact I).
  destruct (rows_of_collection listed_world [row T1; row T2] eq_refl)
    as (_ & Hkeys & _ & Hnd).
  split; [reflexivity|]. split; [exact Hkeys | exact (Hnd H)].
Defined.

Lemma mount_starts_witness :
  JSON_parse Ref.json (Ref.stringify [T1; T2]) = Some [T1; T2] /\
  mount Ref.json (Some (Ref.stringify [T1; T2])) = Some cached_world /\
  (exists w, mount Ref.json None = Some w /\ tasks w = [] /\
     storage w = Some (JSON_stringify Ref.json [])).
Proof.
  split; [reflexivity|]. split; [reflexivity|].
  destruct (mount_starts Ref.json None [] eq_refl)
    as (w & Hm & Ht & _ & _ & _ & _ & _ & Hs).
  exists w. split; [exact Hm|]. split; [exact Ht | exact Hs].
Defined.

Lemma cache_mirrors_tasks_witness :
  mount Ref.json None = Some mounted_world /\
  run Ref.json [Change "Buy milk"; Submit; Settle 1 (Fulfilled_task T1)]
      mounted_world
  = Some (mkWorld [T1] EmptyString false All (Some (Ref.stringify [T1]))
                  [LoadTasks] []) /\
  Some (Ref.stringify [T1]) = Some (JSON_stringify Ref.json [T1]).
Proof.
  split; [reflexivity|]. split; [reflexivity|].
  exact (cache_mirrors_tasks Ref.json None
           [Change "Buy milk"; Submit; Settle 1 (Fulfilled_task T1)]
           mounted_world _ eq_refl eq_refl).
Defined.

Lemma rejection_is_logged_witness :
  inflight pending_world !! 1 = Some (AddTask [] "Buy milk") /\
  exists w', step Ref.json (Settle 1 (Rejected "Network Error")) pending_world
             = Some w' /\
    tasks w' = [] /\ newTask w' = "Buy milk" /\ loading w' = false /\
    console w' = [("Failed to add task:", "Network Error")].
Proof.
  split; [reflexivity|].
  destruct (rejection_is_logged Ref.json pending_world 1 (AddTask [] "Buy milk")
              "Network Error" eq_refl)
    as (w' & Hstep & Ht & _ & Hn & _ & _ & Hc & Hl).
  exists w'. repeat split; assumption.
Defined.

Lemma add_answer_writes_snapshot_witness :
  truthy (trim (newTask (setNewTask " Buy milk " mounted_world))) = true /\
  exists w',
    run Ref.json [Settle 0 (Rejected "Network Error")]
        (handleAddTask (setNewTask " Buy milk " mounted_world)) = Some w' /\
    inflight w' !! 0 = Some (AddTask [] " Buy milk ") /\
    exists w2,
      step Ref.json (Settle 0 (Fulfilled_task T1)) w' = Some w2 /\
      tasks w2 = [T1] /\ newTask w2 = EmptyString /\ loading w2 = false /\
      total (stats (tasks w2)) = S (total (stats (tasks w'))).
Proof.
  split; [reflexivity|].
  eexists. split; [reflexivity|]. split; [reflexivity|].
  destruct (add_answer_writes_snapshot Ref.json
              (setNewTask " Buy milk " mounted_world) T1 "Network Error"
              [Settle 0 (Rejected "Network Error")] _ 0 eq_refl eq_refl eq_refl)
    as (_ & (w2 & Hstep & Ht & Hn & Hl & Hcur) & _).
  exists w2. split; [exact Hstep|]. split; [exact Ht|].
  split; [exact Hn|]. split; [exact Hl|].
  exact (proj2 (Hcur eq_refl)).
Defined.

Lemma add_button_enabled_iff_witness :
  add_disabled (setNewTask "Buy milk" mounted_world) = false /\
  loading (submit (setNewTask "Buy milk" mounted_world)) = true /\
  add_disabled pending_world = true /\
  submit pending_world = pending_world.
Proof.
  split; [reflexivity|]. split.
  - exact (proj1 (proj2 (proj1 (proj2
             (add_button_enabled_iff (setNewTask "Buy milk" mounted_world)))
             eq_refl))).
  - split; [reflexivity|].
    exact (proj2 (proj2 (add_button_enabled_iff pending_world)) eq_refl).
Defined.

Lemma create_never_blank_witness :
  mount Ref.json None = Some mounted_world /\
  run Ref.json [Change "Buy milk"; Submit] mounted_world = Some pending_world /\
  (AddTask [] "Buy milk" ∈ inflight pending_world) /\
  truthy (trim "Buy milk") = true /\ "Buy milk" = newTask pending_world /\
  loading pending_world = true.
Proof.
  assert (AddTask [] "Buy milk" ∈ inflight pending_world) as H
    by (simpl; apply list_elem_of_further, list_elem_of_here).
  split; [reflexivity|]. split; [reflexivity|]. split; [exact H|].
  exact (create_never_blank Ref.json None [Change "Buy milk"; Submit]
           mounted_world pending_world [] "Buy milk" eq_refl eq_refl H).
Defined.

Lemma fetched_list_replaces_collection_witness :
  mount Ref.json None = Some mounted_world /\
  truthy (trim "Buy milk") = true /\
  exists w1 w2,
    run Ref.json [Change "Buy milk"; Submit; Settle 1 (Fulfilled_task T1)]
        mounted_world = Some w1 /\
    tasks w1 = tasks mounted_world ++ [T1] /\
    step Ref.json (Settle 0 (Fulfilled_tasks [T2])) w1 = Some w2 /\
    tasks w2 = [T2] /\ storage w2 = Some (JSON_stringify Ref.json [T2]) /\
    inflight w2 = [].
Proof.
  split; [reflexivity|]. split; [reflexivity|].
  exact (fetched_list_replaces_collection Ref.json None mounted_world
           "Buy milk" T1 [T2] eq_refl eq_refl).
Defined.

Lemma later_toggle_drops_earlier_witness :
  tasks listed_world !! 0 = Some T1 /\ id T1 <> id T2 /\
  exists w1 w2,
    run Ref.json [Toggle T1; Toggle T2;
                  Settle (length (inflight listed_world)) (Fulfilled_task T1_done)]
        listed_world = Some w1 /\
    tasks w1 !! 0 = Some T1_done /\
    step Ref.json (Settle (length (inflight listed_world))
                          (Fulfilled_task (mkTask "2" "Walk the dog" false))) w1
      = Some w2 /\
    tasks w2 = map (replace_by_id T2 (mkTask "2" "Walk the dog" false))
                   (tasks listed_world) /\
    tasks w2 !! 0 = Some T1.
Proof.
  assert (id T1 <> id T2) as H by discriminate.
  split; [reflexivity|]. split; [exact H|].
  exact (later_toggle_drops_earlier Ref.json listed_world T1 T2 T1_done
           (mkTask "2" "Walk the dog" false) 0 eq_refl H).
Defined.

Lemma unique_ids_after_answer_witness :
  NoDup (ids [T1; T2]) /\
  (exists w2, step Ref.json (Settle 1 Fulfilled_void)
                (handleDeleteTask "1" cached_world) = Some w2 /\
     NoDup (ids (tasks w2))) /\
  (exists w2, step Ref.json (Settle 1 (Fulfilled_task T1_done))
                (handleToggleComplete T1 cached_world) = Some w2 /\
     NoDup (ids (tasks w2))) /\
  (id T3 ∉ ids [T1; T2]) /\
  (exists w2, step Ref.json (Settle 1 (Fulfilled_task T3))
                (handleAddTask (setNewTask "Read" cached_world)) = Some w2 /\
     NoDup (ids (tasks w2))).
Proof.
  assert (NoDup (ids [T1; T2])) as H
    by (apply (bool_decide_unpack _); vm_compute; exact I).
  assert (id T3 ∉ ids [T1; T2]) as Hfresh
    by (apply (bool_decide_unpack _); vm_compute; exact I).
  split; [exact H|]. split; [|split; [|split; [exact Hfresh|]]].
  - exact (proj1 (unique_ids_after_answer Ref.json
                    (handleDeleteTask "1" cached_world) 1 [T1; T2] H)
             "1" eq_refl).
  - exact (proj1 (proj2 (unique_ids_after_answer Ref.json
                    (handleToggleComplete T1 cached_world) 1 [T1; T2] H))
             T1 T1_done eq_refl eq_refl).
  - destruct (proj2 (proj2 (unique_ids_after_answer Ref.json
                    (handleAddTask (setNewTask "Read" cached_world)) 1 [T1; T2] H))
                "Read" T3 eq_refl) as (w2 & Hstep & Hiff).
    exists w2. split; [exact Hstep | exact (proj2 Hiff Hfresh)].
Defined.

Lemma fetch_only_at_mount_witness :
  mount Ref.json None = Some mounted_world /\
  run Ref.json [Settle 0 (Rejected "Network Error")] mounted_world
  = Some (mkWorld [] EmptyString false All (Some "[]") []
                  [("Failed to load tasks:", "Network Error")]) /\
  fetches_in_flight (mkWorld [] EmptyString false All (Some "[]") []
                       [("Failed to load tasks:", "Network Error")]) = 0 /\
  fetches_in_flight
    (mkWorld [] "Buy milk" true All (Some "[]") [AddTask [] "Buy milk"]
             [("Failed to load tasks:", "Network Error")]) = 0.
Proof.
  split; [reflexivity|]. split; [reflexivity|]. split; [reflexivity|].
  exact (proj2 (fetch_only_at_mount Ref.json None
                  [Settle 0 (Rejected "Network Error")] [Change "Buy milk"; Submit]
                  mounted_world _ _ eq_refl eq_refl) eq_refl eq_refl).
Defined.

Lemma stats_after_toggle_witness :
  inflight (handleToggleComplete T1 cached_world) !! 1
    = Some (ToggleComplete [T1; T2] T1) /\
  NoDup (ids [T1; T2]) /\ [T1; T2] !! 0 = Some T1 /\
  isCompleted T1_done = negb (isCompleted T1) /\
  exists w2,
    step Ref.json (Settle 1 (Fulfilled_task T1_done))
         (handleToggleComplete T1 cached_world) = Some w2 /\
    stats [T1; T2] = mkStats 2 1 1 /\
    total (stats (tasks w2)) = 2 /\
    S (active (stats (tasks w2))) = 1 /\
    completed (stats (tasks w2)) = 2.
Proof.
  assert (NoDup (ids [T1; T2])) as H
    by (apply (bool_decide_unpack _); vm_compute; exact I).
  destruct (stats_after_toggle Ref.json (handleToggleComplete T1 cached_world) 1
              [T1; T2] T1 T1_done 0 eq_refl H eq_refl eq_refl)
    as (w2 & Hstep & Ht & Ha & Hc).
  split; [reflexivity|]. split; [exact H|]. split; [reflexivity|].
  split; [reflexivity|].
  exists w2. split; [exact Hstep|]. split; [reflexivity|].
  split; [exact Ht|]. split; [exact Ha | exact Hc].
Defined.

Lemma stats_after_delete_witness :
  inflight (handleDeleteTask (id T2) cached_world) !! 1
    = Some (DeleteTask [T1; T2] (id T2)) /\
  NoDup (ids [T1; T2]) /\ [T1; T2] !! 1 = Some T2 /\
  exists w2,
    step Ref.json (Settle 1 Fulfilled_void)
         (handleDeleteTask (id T2) cached_world) = Some w2 /\
    S (total (stats (tasks w2))) = 2 /\
    active (stats (tasks w2)) = 1 /\
    S (completed (stats (tasks w2))) = 1.
Proof.
  assert (NoDup (ids [T1; T2])) as H
    by (apply (bool_decide_unpack _); vm_compute; exact I).
  destruct (stats_after_delete Ref.json (handleDeleteTask (id T2) cached_world) 1
              [T1; T2] T2 1 eq_refl H eq_refl)
    as (w2 & Hstep & Ht & Ha & Hc).
  split; [reflexivity|]. split; [exact H|]. split; [reflexivity|].
  exists w2. split; [exact Hstep|]. split; [exact Ht|].
  split; [exact Ha | exact Hc].
Defined.

